(** * Healthcare Translator: the capture-and-translate component

    A shallow embedding of [src/frontend/App.js], the single React function
    component [App] of the repository, and the properties of its
    transcript merge, capture control and translate-and-speak request.

    How the component is read.

    - The seven [useState] cells are the record [State].  A setter call is
      an update of one field.  Every handler runs to completion and React
      renders again before the next event is delivered, so a handler that
      was handed out by the latest render reads the current [State].
    - [recognitionRef] is a [useRef] cell: one mutable box shared by all
      renders, read and written in place.
    - A closure that outlives the render that created it keeps that
      render's constants.  [recognition.onresult] is assigned once, inside
      [startListening], and mentions the render constant [transcript]; the
      recognition object therefore carries the value [transcript] had when
      [startListening] ran ([closure_transcript]).  The other long-lived
      closures ([recognition.onerror], [recognition.onend] and the part of
      [handleTranslate] after its [await]) only call setters and
      [stopListening], which reads the shared ref, so they capture nothing
      that can go out of date.
    - What lies outside the component is explicit state of the [World]: the
      recognitions the speech engine is running, the [fetch] calls that
      were issued, the [alert] boxes that were shown. *)

From Stdlib Require Import List NArith Bool String Ascii Arith Lia.
Import ListNotations.
Local Open Scope list_scope.

(* ------------------------------------------------------------------ *)
(** ** JavaScript strings and the two value shapes the component meets *)

Module Js.

(** A JavaScript string is a sequence of UTF-16 code units. *)
Definition jsstring : Type := list N.

(** A literal of the source text, for the characters below U+0100. *)
Fixpoint lit (s : string) : jsstring :=
  match s with
  | EmptyString => []
  | String a rest => N_of_ascii a :: lit rest
  end.

(** ECMAScript [WhiteSpace] and [LineTerminator] code points, the ones
    [String.prototype.trim] strips. *)
Definition is_white_space (c : N) : bool :=
  existsb (N.eqb c)
    [9; 10; 11; 12; 13; 32; 160; 5760; 8232; 8233; 8239; 8287; 12288; 65279]%N
  || (N.leb 8192 c && N.leb c 8202).

Fixpoint trimStart (s : jsstring) : jsstring :=
  match s with
  | [] => []
  | c :: rest => if is_white_space c then trimStart rest else s
  end.

Definition trimEnd (s : jsstring) : jsstring := rev (trimStart (rev s)).

Definition trim (s : jsstring) : jsstring := trimEnd (trimStart s).

(** The values a response field or the [translated] cell can hold: a
    string, or [undefined] when the field is missing. *)
Inductive value : Type :=
| Undefined
| Str (s : jsstring).

(** [ToBoolean]. *)
Definition truthy (v : value) : bool :=
  match v with
  | Undefined => false
  | Str [] => false
  | Str (_ :: _) => true
  end.

(** [ToString], as a template literal and [alert] apply it. *)
Definition to_string (v : value) : jsstring :=
  match v with
  | Undefined => lit "undefined"
  | Str s => s
  end.

(** [a || b]. *)
Definition or_else (a b : value) : value := if truthy a then a else b.

End Js.

Import Js.

(* ------------------------------------------------------------------ *)
(** ** The component *)

Module App.

(** [const BACKEND = "http://127.0.0.1:8000"] *)
Definition BACKEND : jsstring := lit "http://127.0.0.1:8000".

(** An entry of the language list, [{ code, name }]. *)
Record Language : Type := { code : jsstring; name : jsstring }.

(** The [useState] cells of [App], with their initial values in [init]. *)
Record State : Type := {
  listening : bool;
  transcript : jsstring;
  translated : value;
  audioUrl : jsstring;
  languages : list Language;
  targetLang : jsstring;
  loading : bool
}.

Definition init : State :=
  {| listening := false; transcript := []; translated := Str [];
     audioUrl := []; languages := []; targetLang := lit "fr";
     loading := false |}.

Definition setListening (b : bool) (s : State) : State :=
  {| listening := b; transcript := transcript s; translated := translated s;
     audioUrl := audioUrl s; languages := languages s;
     targetLang := targetLang s; loading := loading s |}.

Definition setTranscript (t : jsstring) (s : State) : State :=
  {| listening := listening s; transcript := t; translated := translated s;
     audioUrl := audioUrl s; languages := languages s;
     targetLang := targetLang s; loading := loading s |}.

Definition setTranslated (v : value) (s : State) : State :=
  {| listening := listening s; transcript := transcript s; translated := v;
     audioUrl := audioUrl s; languages := languages s;
     targetLang := targetLang s; loading := loading s |}.

Definition setAudioUrl (u : jsstring) (s : State) : State :=
  {| listening := listening s; transcript := transcript s;
     translated := translated s; audioUrl := u; languages := languages s;
     targetLang := targetLang s; loading := loading s |}.

Definition setLanguages (l : list Language) (s : State) : State :=
  {| listening := listening s; transcript := transcript s;
     translated := translated s; audioUrl := audioUrl s; languages := l;
     targetLang := targetLang s; loading := loading s |}.

Definition setTargetLang (c : jsstring) (s : State) : State :=
  {| listening := listening s; transcript := transcript s;
     translated := translated s; audioUrl := audioUrl s;
     languages := languages s; targetLang := c; loading := loading s |}.

Definition setLoading (b : bool) (s : State) : State :=
  {| listening := listening s; transcript := transcript s;
     translated := translated s; audioUrl := audioUrl s;
     languages := languages s; targetLang := targetLang s; loading := b |}.

(** *** The speech source *)

(** One entry of [event.results]: [res.isFinal] and [res[0].transcript]. *)
Record SpeechResult : Type := { isFinal : bool; alt0 : jsstring }.

(** The argument of [recognition.onresult]. *)
Record SpeechEvent : Type := {
  resultIndex : nat;
  results : list SpeechResult
}.

(** A recognition object built by [new SR()] in [startListening]: its
    identity, the three properties the code assigns, and the value of the
    render constant [transcript] that its [onresult] closure captured. *)
Record Recognition : Type := {
  rid : nat;
  lang : jsstring;
  interimResults : bool;
  continuous : bool;
  closure_transcript : jsstring
}.

Definition same_recognition (a b : Recognition) : bool := rid a =? rid b.

(** *** The translate-and-speak request *)

(** The body handed to [fetch] for [POST /translate_tts]. *)
Record Request : Type := {
  url : jsstring;
  text : jsstring;
  target_lang : jsstring;
  source_lang : jsstring
}.

(** The parsed response body, [data]. *)
Record Data : Type := {
  translated_text : value;
  audio_url : value;
  error : value
}.

(** How the awaited part of [handleTranslate] ends: [fetch] or
    [res.json()] throws, or they give [res.ok] and [data]. *)
Inductive Outcome : Type :=
| Threw
| Resolved (ok : bool) (data : Data).

(** *** Everything the handlers read or write *)

Record World : Type := {
  st : State;
  (** [recognitionRef.current]; [None] is [null]. *)
  recognitionRef : option Recognition;
  (** [window.SpeechRecognition || window.webkitSpeechRecognition] is there. *)
  sr_supported : bool;
  (** Recognitions on which [start()] was called and which were neither
      [stop()]ped nor ended by the engine: the live capture handles. *)
  active : list Recognition;
  (** The [fetch] calls to [/translate_tts], oldest first. *)
  requests : list Request;
  (** How many of them have been answered. *)
  settled : nat;
  (** The [alert] boxes shown, oldest first. *)
  alerts : list jsstring;
  (** Identity of the next object [new SR()] builds. *)
  fresh : nat
}.

Definition boot (supported : bool) : World :=
  {| st := init; recognitionRef := None; sr_supported := supported;
     active := []; requests := []; settled := 0; alerts := []; fresh := 0 |}.

Definition with_st (f : State -> State) (w : World) : World :=
  {| st := f (st w); recognitionRef := recognitionRef w;
     sr_supported := sr_supported w; active := active w;
     requests := requests w; settled := settled w; alerts := alerts w;
     fresh := fresh w |}.

Definition set_ref (r : option Recognition) (w : World) : World :=
  {| st := st w; recognitionRef := r; sr_supported := sr_supported w;
     active := active w; requests := requests w; settled := settled w;
     alerts := alerts w; fresh := fresh w |}.

Definition alert (msg : jsstring) (w : World) : World :=
  {| st := st w; recognitionRef := recognitionRef w;
     sr_supported := sr_supported w; active := active w;
     requests := requests w; settled := settled w;
     alerts := alerts w ++ [msg]; fresh := fresh w |}.

Definition fetch (q : Request) (w : World) : World :=
  {| st := st w; recognitionRef := recognitionRef w;
     sr_supported := sr_supported w; active := active w;
     requests := requests w ++ [q]; settled := settled w;
     alerts := alerts w; fresh := fresh w |}.

Definition answer (w : World) : World :=
  {| st := st w; recognitionRef := recognitionRef w;
     sr_supported := sr_supported w; active := active w;
     requests := requests w; settled := S (settled w);
     alerts := alerts w; fresh := fresh w |}.

(** [new SR()] followed by [recognition.start()]. *)
Definition engine_start (r : Recognition) (w : World) : World :=
  {| st := st w; recognitionRef := recognitionRef w;
     sr_supported := sr_supported w; active := r :: active w;
     requests := requests w; settled := settled w; alerts := alerts w;
     fresh := S (fresh w) |}.

(** [recognition.stop()], and the engine ending a recognition. *)
Definition engine_stop (r : Recognition) (w : World) : World :=
  {| st := st w; recognitionRef := recognitionRef w;
     sr_supported := sr_supported w;
     active := filter (fun x => negb (same_recognition x r)) (active w);
     requests := requests w; settled := settled w; alerts := alerts w;
     fresh := fresh w |}.

(** Requests issued and not answered yet. *)
Definition pending (w : World) : nat := List.length (requests w) - settled w.

(** *** [recognition.onresult] *)

(** One turn of the loop body on [res]:
    [if (res.isFinal) finalText += res[0].transcript + " ";
     else interim += res[0].transcript;] *)
Definition onresult_body (res : SpeechResult) (acc : jsstring * jsstring)
  : jsstring * jsstring :=
  let (finalText, interim) := acc in
  if isFinal res then (finalText ++ alt0 res ++ lit " ", interim)
  else (finalText, interim ++ alt0 res).

(** [for (let i = ...; i < event.results.length; i++)], at most [fuel]
    turns from index [i]. *)
Fixpoint onresult_loop (fuel i : nat) (rs : list SpeechResult)
    (acc : jsstring * jsstring) : jsstring * jsstring :=
  match fuel with
  | 0 => acc
  | S fuel' =>
      match nth_error rs i with
      | None => acc
      | Some res => onresult_loop fuel' (S i) rs (onresult_body res acc)
      end
  end.

(** The values of [finalText] and [interim] when the loop is over;
    [transcript] is the constant the closure captured. *)
Definition onresult_parts (transcript : jsstring) (event : SpeechEvent)
  : jsstring * jsstring :=
  onresult_loop (List.length (results event)) (resultIndex event) (results event)
    (transcript, []).

(** The argument of [setTranscript(finalText + interim)]. *)
Definition onresult (transcript : jsstring) (event : SpeechEvent) : jsstring :=
  let (finalText, interim) := onresult_parts transcript event in
  finalText ++ interim.

Definition recognition_onresult (r : Recognition) (event : SpeechEvent)
    (w : World) : World :=
  with_st (setTranscript (onresult (closure_transcript r) event)) w.

(** *** [stopListening], [startListening] and the other two callbacks *)

Definition stopListening (w : World) : World :=
  let w1 :=
    match recognitionRef w with
    | Some r => set_ref None (engine_stop r w)
    | None => w
    end in
  with_st (setListening false) w1.

(** [recognition.onerror = () => stopListening()] *)
Definition recognition_onerror (w : World) : World := stopListening w.

(** [recognition.onend = () => setListening(false)] *)
Definition recognition_onend (w : World) : World :=
  with_st (setListening false) w.

Definition no_speech_support : jsstring :=
  lit "Your browser doesn't support microphone speech recognition. Please use Chrome.".

(** The object [startListening] builds in world [w]. *)
Definition new_recognition (w : World) : Recognition :=
  {| rid := fresh w; lang := lit "en-US"; interimResults := true;
     continuous := true; closure_transcript := transcript (st w) |}.

Definition startListening (w : World) : World :=
  if negb (sr_supported w) then alert no_speech_support w
  else
    let recognition := new_recognition w in
    with_st (setListening true)
      (set_ref (Some recognition) (engine_start recognition w)).

(** *** [handleTranslate] and [clearAll] *)

(** "Please speak first", U+2014, "no text to translate." *)
Definition please_speak_first : jsstring :=
  lit "Please speak first " ++ [8212%N] ++ lit " no text to translate.".

Definition translation_failed : jsstring := lit "Translation failed.".

Definition server_error : jsstring :=
  lit "Server error. Is the backend running?".

Definition translate_request (s : State) : Request :=
  {| url := BACKEND ++ lit "/translate_tts"; text := transcript s;
     target_lang := targetLang s; source_lang := lit "auto" |}.

(** [handleTranslate] up to its [await]: the guard, the three setters
    and the call of [fetch]. *)
Definition handleTranslate (w : World) : World :=
  if negb (truthy (Str (trim (transcript (st w))))) then
    alert please_speak_first w
  else
    fetch (translate_request (st w))
      (with_st (fun s => setAudioUrl [] (setTranslated (Str [])
                           (setLoading true s))) w).

(** [handleTranslate] from the [await] on, run when the answer is in:
    the [try] body, the [catch] and the [finally]. *)
Definition handleTranslate_resume (o : Outcome) (w : World) : World :=
  let w1 :=
    match o with
    | Threw => alert server_error w
    | Resolved ok data =>
        if negb ok then
          alert (to_string (or_else (error data) (Str translation_failed))) w
        else
          with_st (fun s =>
                     setAudioUrl (BACKEND ++ to_string (audio_url data))
                       (setTranslated (translated_text data) s)) w
    end in
  with_st (setLoading false) w1.

Definition clearAll (w : World) : World :=
  with_st (fun s => setAudioUrl [] (setTranslated (Str [])
                      (setTranscript [] s))) w.

(** *** What the rendered controls offer *)

Inductive Action : Type :=
| StartListening
| StopListening
| SelectLanguage (c : jsstring)
| Translate
| ClearAll.

(** The [controls] block of the JSX: Start is rendered when [listening]
    is false and Stop otherwise, the Translate button carries
    [disabled={loading}], the select and Clear are always there. *)
Definition offered (s : State) (a : Action) : bool :=
  match a with
  | StartListening => negb (listening s)
  | StopListening => listening s
  | SelectLanguage _ => true
  | Translate => negb (loading s)
  | ClearAll => true
  end.

Definition act (a : Action) (w : World) : World :=
  match a with
  | StartListening => startListening w
  | StopListening => stopListening w
  | SelectLanguage c => with_st (setTargetLang c) w
  | Translate => handleTranslate w
  | ClearAll => clearAll w
  end.

(** *** Events, one at a time *)

Inductive Event : Type :=
| User (a : Action)
| OnResult (r : Recognition) (e : SpeechEvent)
| OnError (r : Recognition)
| OnEnd (r : Recognition)
| OnAnswer (o : Outcome)
| OnLanguages (l : list Language).

Definition fire (ev : Event) (w : World) : World :=
  match ev with
  | User a => act a w
  | OnResult r e => recognition_onresult r e w
  | OnError _ => recognition_onerror w
  | OnEnd r => recognition_onend (engine_stop r w)
  | OnAnswer o => handleTranslate_resume o (answer w)
  | OnLanguages l => with_st (setLanguages l) w
  end.

Definition run (evs : list Event) (w : World) : World :=
  fold_left (fun acc ev => fire ev acc) evs w.

(** An event the page can receive in [w]: a control that is rendered
    and enabled, an answer to a request that is waiting for one; the
    speech engine and the language fetch are not constrained. *)
Definition enabled (w : World) (ev : Event) : bool :=
  match ev with
  | User a => offered (st w) a
  | OnAnswer _ => settled w <? List.length (requests w)
  | _ => true
  end.

Fixpoint enabled_run (evs : list Event) (w : World) : bool :=
  match evs with
  | [] => true
  | ev :: rest => enabled w ev && enabled_run rest (fire ev w)
  end.

End App.

Import App.

(* ------------------------------------------------------------------ *)
(** ** Concrete inputs used by the examples below *)

Module Scenario.

Definition final (s : string) : SpeechResult :=
  {| isFinal := true; alt0 := lit s |}.

Definition interim (s : string) : SpeechResult :=
  {| isFinal := false; alt0 := lit s |}.

(** A freshly mounted page in a browser with speech recognition. *)
Definition page : World := boot true.

(** The recognition the first click on Start builds. *)
Definition first_recognition : Recognition := new_recognition page.

(** The page with [t] in the transcript cell. *)
Definition page_with (t : string) : World :=
  with_st (setTranscript (lit t)) page.

(** [{resultIndex: 0, results: [{text: "hel", isFinal: false}]}] *)
Definition batch_hel : SpeechEvent :=
  {| resultIndex := 0; results := [interim "hel"] |}.

(** [{resultIndex: 0, results: [{text: "hello world", isFinal: true}]}] *)
Definition batch_hello_world : SpeechEvent :=
  {| resultIndex := 0; results := [final "hello world"] |}.

(** A continuous recognition finalises "hello", then "world": the second
    event lists both results and says that index 1 is the new one. *)
Definition batch_hello : SpeechEvent :=
  {| resultIndex := 0; results := [final "hello"] |}.

Definition batch_world : SpeechEvent :=
  {| resultIndex := 1; results := [final "hello"; final "world"] |}.

(** [{translated_text: "bonjour le monde", audio_url: "/audio/1.mp3"}] *)
Definition bonjour : Data :=
  {| translated_text := Str (lit "bonjour le monde");
     audio_url := Str (lit "/audio/1.mp3");
     error := Undefined |}.

(** [{error: "tts failed"}] *)
Definition tts_failed : Data :=
  {| translated_text := Undefined; audio_url := Undefined;
     error := Str (lit "tts failed") |}.

(** [{error: ""}] *)
Definition empty_error : Data :=
  {| translated_text := Undefined; audio_url := Undefined;
     error := Str [] |}.

End Scenario.

(* ------------------------------------------------------------------ *)
(** ** The language list: the effect that runs once after mounting *)

Module Catalog.

(** The parsed body of [GET /languages]; [languages_field] is
    [data.languages], [None] when the body has no such field. *)
Record LanguagesData : Type := { languages_field : option (list Language) }.

(** How the promise chain ends: [fetch] or [res.json()] rejects, or the
    body is there.  The chain does not look at [res.ok]. *)
Inductive LanguagesOutcome : Type :=
| LanguagesThrew
| LanguagesResolved (data : LanguagesData).

(** [data.languages || []]: an array is truthy, empty or not. *)
Definition languages_or_empty (data : LanguagesData) : list Language :=
  match languages_field data with
  | Some l => l
  | None => []
  end.

(** [.then(data => setLanguages(data.languages || []))] and
    [.catch(() => setLanguages([]))]. *)
Definition load_languages (o : LanguagesOutcome) (w : World) : World :=
  match o with
  | LanguagesResolved data => with_st (setLanguages (languages_or_empty data)) w
  | LanguagesThrew => with_st (setLanguages []) w
  end.

End Catalog.

(* ------------------------------------------------------------------ *)
(** ** What [App] returns: the page for a state *)

Module View.

Record Button : Type := {
  className : jsstring;
  label : jsstring;
  onClick : Action;
  disabled : bool
}.

(** [<option key={l.code} value={l.code}>{l.name} ({l.code})</option>] *)
Record SelectOption : Type := {
  key : jsstring;
  option_value : jsstring;
  option_text : jsstring
}.

Record Select : Type := {
  selected : jsstring;
  options : list SelectOption
}.

Record Panel : Type := { heading : jsstring; body : jsstring }.

(** The panel with [<ReactAudioPlayer src={audioUrl} controls autoPlay />]. *)
Record AudioPanel : Type := {
  audio_heading : jsstring;
  src : jsstring;
  controls : bool;
  autoPlay : bool
}.

Record Page : Type := {
  title : jsstring;
  subtitle : jsstring;
  capture_button : Button;
  language_select : Select;
  translate_button : Button;
  clear_button : Button;
  transcript_panel : Panel;
  translated_panel : Panel;
  audio_panel : option AudioPanel
}.

Definition waiting_for_speech : jsstring := lit "Waiting for your speech...".

Definition no_translation_yet : jsstring := lit "No translation yet.".

Definition translating : jsstring := lit "Translating...".

(** U+1F310, " Translate & Speak" *)
Definition translate_and_speak : jsstring :=
  [55356; 57104]%N ++ lit " Translate & Speak".

Definition render_option (l : Language) : SelectOption :=
  {| key := code l; option_value := code l;
     option_text := name l ++ lit " (" ++ code l ++ lit ")" |}.

Definition render (s : State) : Page :=
  {| title := [55358; 56954]%N ++ lit " Healthcare Translator";
     subtitle := lit "Speak, translate, and listen instantly";
     capture_button :=
       if negb (listening s) then
         {| className := lit "primary";
            label := [55356; 57252]%N ++ lit " Start Listening";
            onClick := StartListening; disabled := false |}
       else
         {| className := lit "stop"; label := [9209%N] ++ lit " Stop";
            onClick := StopListening; disabled := false |};
     language_select :=
       {| selected := targetLang s;
          options := map render_option (languages s) |};
     translate_button :=
       {| className := lit "primary";
          label := if loading s then translating else translate_and_speak;
          onClick := Translate; disabled := loading s |};
     clear_button :=
       {| className := lit "secondary";
          label := [55358; 56825]%N ++ lit " Clear";
          onClick := ClearAll; disabled := false |};
     transcript_panel :=
       {| heading := [55357; 56803]%N ++ lit " Original Transcript";
          body := to_string (or_else (Str (transcript s))
                               (Str waiting_for_speech)) |};
     translated_panel :=
       {| heading := [55356; 57102]%N ++ lit " Translated Text";
          body := to_string (or_else (translated s)
                               (Str no_translation_yet)) |};
     audio_panel :=
       if truthy (Str (audioUrl s)) then
         Some {| audio_heading := [55357; 56586]%N ++ lit " Audio Playback";
                 src := audioUrl s; controls := true; autoPlay := true |}
       else None |}.

End View.

(* ------------------------------------------------------------------ *)
(** ** When the engine's end callback arrives *)

Module Timing.

(** An end callback that arrives while the page is listening comes from
    the recognition [recognitionRef] holds: the end of an earlier
    recognition does not arrive late, after a later one was started. *)
Definition end_in_time (w : World) (ev : Event) : bool :=
  match ev with
  | OnEnd r =>
      negb (listening (st w))
      || match recognitionRef w with
         | Some handle => same_recognition r handle
         | None => false
         end
  | _ => true
  end.

(** A sequence of events the page can receive, one after the other, in
    which no end callback arrives late. *)
Fixpoint in_time_run (evs : list Event) (w : World) : bool :=
  match evs with
  | [] => true
  | ev :: rest =>
      enabled w ev && end_in_time w ev && in_time_run rest (fire ev w)
  end.

End Timing.

(* ------------------------------------------------------------------ *)
(** ** Strings: what [trim] leaves *)

Section Trim.

Lemma trimStart_blank (s : jsstring) :
  forallb is_white_space s = true -> trimStart s = [].
Proof.
  induction s as [|c s IH]; simpl; [reflexivity|].
  intros H. apply andb_true_iff in H as [Hc Hs].
  rewrite Hc. exact (IH Hs).
Qed.

(** [trimStart] stops at a character that is not white space. *)
Lemma trimStart_head (s : jsstring) (c : N) (rest : jsstring) :
  trimStart s = c :: rest -> is_white_space c = false.
Proof.
  induction s as [|d s IH]; simpl; [discriminate|].
  destruct (is_white_space d) eqn:Hd; [exact IH|].
  intros H. injection H as -> _. exact Hd.
Qed.

Lemma trimStart_nil_blank (s : jsstring) :
  trimStart s = [] -> forallb is_white_space s = true.
Proof.
  induction s as [|c s IH]; simpl; [reflexivity|].
  destruct (is_white_space c); [exact IH | discriminate].
Qed.

Lemma forallb_rev {A : Type} (p : A -> bool) (l : list A) :
  forallb p (rev l) = forallb p l.
Proof.
  induction l as [|a l IH]; simpl; [reflexivity|].
  rewrite forallb_app, IH. simpl. rewrite andb_true_r. apply andb_comm.
Qed.

Lemma trim_blank (s : jsstring) :
  forallb is_white_space s = true -> trim s = [].
Proof.
  intros H. unfold trim, trimEnd. rewrite (trimStart_blank s H). reflexivity.
Qed.

Lemma trim_nil_blank (s : jsstring) :
  trim s = [] -> forallb is_white_space s = true.
Proof.
  unfold trim, trimEnd. intros H.
  apply trimStart_nil_blank.
  destruct (trimStart s) as [|c rest] eqn:Hs; [reflexivity|].
  exfalso.
  assert (Hrev : trimStart (rev (c :: rest)) = []).
  { destruct (trimStart (rev (c :: rest))) as [|x xs]; [reflexivity|].
    simpl in H. destruct (rev xs); discriminate H. }
  apply trimStart_nil_blank in Hrev. rewrite forallb_rev in Hrev.
  simpl in Hrev. rewrite (trimStart_head s c rest Hs) in Hrev.
  discriminate Hrev.
Qed.

(** The guard [!transcript.trim()] of [handleTranslate]. *)
Lemma guard_spec (s : jsstring) :
  negb (truthy (Str (trim s))) = true <-> trim s = [].
Proof.
  destruct (trim s); simpl; split; intros H; congruence.
Qed.

End Trim.

(* ------------------------------------------------------------------ *)
(** ** The merge loop of [recognition.onresult] *)

Section Merge.

(** The loop visits the results from index [i] to the end, in order. *)
Lemma onresult_loop_skipn (rs : list SpeechResult) :
  forall fuel i acc,
    List.length rs - i <= fuel ->
    onresult_loop fuel i rs acc
    = fold_left (fun a res => onresult_body res a) (skipn i rs) acc.
Proof.
  induction fuel as [|fuel IH]; intros i acc Hfuel; simpl.
  - rewrite skipn_all2 by lia. reflexivity.
  - destruct (nth_error rs i) as [res|] eqn:Hi.
    + assert (Hlt : i < List.length rs)
        by (apply nth_error_Some; congruence).
      rewrite IH by lia.
      destruct (nth_error_split rs i Hi) as (l1 & l2 & -> & <-).
      assert (Hhere : skipn (List.length l1) (l1 ++ res :: l2) = res :: l2).
      { rewrite skipn_app, Nat.sub_diag, skipn_all. reflexivity. }
      assert (Hnext : skipn (S (List.length l1)) (l1 ++ res :: l2) = l2).
      { change (S (List.length l1)) with (1 + List.length l1).
        rewrite <- skipn_skipn, Hhere. reflexivity. }
      rewrite Hhere, Hnext. reflexivity.
    + apply nth_error_None in Hi. rewrite skipn_all2 by lia. reflexivity.
Qed.

(** What the loop body accumulates over a run of results. *)
Lemma fold_body (l : list SpeechResult) :
  forall finalText interim,
    fold_left (fun a res => onresult_body res a) l (finalText, interim)
    = (finalText
         ++ List.concat (map (fun res => alt0 res ++ lit " ") (filter isFinal l)),
       interim
         ++ List.concat (map alt0 (filter (fun res => negb (isFinal res)) l))).
Proof.
  induction l as [|res l IH]; intros finalText interim; simpl.
  - rewrite !app_nil_r. reflexivity.
  - destruct (isFinal res); simpl; rewrite IH; simpl;
      rewrite <- ?app_assoc; reflexivity.
Qed.

(** [finalText] and [interim] after the loop: the captured transcript,
    then every final result from [resultIndex] on with its blank; and
    the interim results from [resultIndex] on. *)
Lemma onresult_parts_spec (t : jsstring) (e : SpeechEvent) :
  onresult_parts t e
  = (t ++ List.concat (map (fun res => alt0 res ++ lit " ")
                    (filter isFinal (skipn (resultIndex e) (results e)))),
     List.concat (map alt0 (filter (fun res => negb (isFinal res))
                         (skipn (resultIndex e) (results e))))).
Proof.
  unfold onresult_parts.
  rewrite onresult_loop_skipn by lia.
  rewrite fold_body. reflexivity.
Qed.

Lemma onresult_spec (t : jsstring) (e : SpeechEvent) :
  onresult t e
  = fst (onresult_parts t e) ++ snd (onresult_parts t e).
Proof.
  unfold onresult. destruct (onresult_parts t e). reflexivity.
Qed.

End Merge.

(* ------------------------------------------------------------------ *)
(** ** The translate request *)

Section Translate.

(** With a transcript that is not blank, [handleTranslate] has one
    path: it does not look at [loading] before it calls [fetch]. *)
Lemma handleTranslate_submits (w : World) :
  truthy (Str (trim (transcript (st w)))) = true ->
  handleTranslate w
  = fetch (translate_request (st w))
      (with_st (fun s => setAudioUrl [] (setTranslated (Str [])
                           (setLoading true s))) w).
Proof.
  intros H. unfold handleTranslate. rewrite H. reflexivity.
Qed.

Lemma handleTranslate_blank (w : World) :
  trim (transcript (st w)) = [] ->
  handleTranslate w = alert please_speak_first w.
Proof.
  intros H. unfold handleTranslate. rewrite H. reflexivity.
Qed.

(** A successful answer is written into whatever state it finds. *)
Lemma resume_success (w : World) (d : Data) :
  handleTranslate_resume (Resolved true d) w
  = with_st (fun s =>
               setLoading false
                 (setAudioUrl (BACKEND ++ to_string (audio_url d))
                    (setTranslated (translated_text d) s))) w.
Proof. reflexivity. Qed.

(** A failed answer touches [loading] and shows one alert. *)
Lemma resume_failure_state (w : World) (d : Data) :
  st (handleTranslate_resume (Resolved false d) w) = setLoading false (st w)
  /\ st (handleTranslate_resume Threw w) = setLoading false (st w).
Proof. split; reflexivity. Qed.

(** One event keeps "at most one request waiting, and [loading] says
    whether there is one", when the event is one the page can receive. *)
Lemma fire_keeps_single_pending (ev : Event) (w : World) :
  enabled w ev = true ->
  settled w <= List.length (requests w)
  /\ pending w = (if loading (st w) then 1 else 0) ->
  settled (fire ev w) <= List.length (requests (fire ev w))
  /\ pending (fire ev w) = (if loading (st (fire ev w)) then 1 else 0).
Proof.
  unfold pending. intros Hen [Hle Hp].
  destruct ev as [a | r e | r | r | o | l]; simpl in *.
  - destruct a; simpl in *.
    + unfold startListening. destruct (sr_supported w); simpl; auto.
    + unfold stopListening. destruct (recognitionRef w); simpl; auto.
    + auto.
    + apply negb_true_iff in Hen. rewrite Hen in Hp.
      unfold handleTranslate.
      destruct (negb (truthy (Str (trim (transcript (st w))))));
        simpl; [rewrite Hen; lia|].
      rewrite length_app. simpl. lia.
    + auto.
  - auto.
  - unfold recognition_onerror, stopListening.
    destruct (recognitionRef w); simpl; auto.
  - auto.
  - apply Nat.ltb_lt in Hen.
    assert (Hzero :
      S (settled w) <= List.length (requests w)
      /\ List.length (requests w) - S (settled w) = 0)
      by (destruct (loading (st w)); lia).
    unfold handleTranslate_resume.
    destruct o as [|ok d]; [|destruct ok]; simpl; exact Hzero.
  - auto.
Qed.

Lemma run_keeps_single_pending (evs : list Event) :
  forall w,
    enabled_run evs w = true ->
    settled w <= List.length (requests w)
    /\ pending w = (if loading (st w) then 1 else 0) ->
    settled (run evs w) <= List.length (requests (run evs w))
    /\ pending (run evs w) = (if loading (st (run evs w)) then 1 else 0).
Proof.
  induction evs as [|ev evs IH]; intros w Hen Hw; simpl in *; [exact Hw|].
  apply andb_true_iff in Hen as [Hev Hrest].
  apply (IH (fire ev w) Hrest).
  exact (fire_keeps_single_pending ev w Hev Hw).
Qed.

(** Nothing but the answer itself decides what the answer writes:
    events that come between do not change it. *)
Lemma answer_overwrites (w : World) (d : Data) :
  let w' := fire (OnAnswer (Resolved true d)) w in
  translated (st w') = translated_text d
  /\ audioUrl (st w') = BACKEND ++ to_string (audio_url d)
  /\ loading (st w') = false.
Proof. simpl. repeat split. Qed.

End Translate.

(* ------------------------------------------------------------------ *)
(** ** Capture: start, stop and the engine's callbacks *)

Section Capture.

Lemma with_st_same (w : World) (b : bool) :
  listening (st w) = b -> with_st (setListening b) w = w.
Proof.
  destruct w as [s ref sup act reqs n al fr]. destruct s. simpl.
  intros ->. reflexivity.
Qed.

(** [stopListening] with no handle and the flag down changes nothing. *)
Lemma stopListening_idle (w : World) :
  recognitionRef w = None -> listening (st w) = false ->
  stopListening w = w.
Proof.
  intros Href Hl. unfold stopListening. rewrite Href.
  apply with_st_same. exact Hl.
Qed.

(** After [stopListening] the handle is gone and the flag is down. *)
Lemma stopListening_releases (w : World) :
  recognitionRef (stopListening w) = None
  /\ listening (st (stopListening w)) = false.
Proof.
  unfold stopListening.
  destruct (recognitionRef w) eqn:Href; simpl; auto.
Qed.

(** So an error callback, which calls [stopListening], releases the
    handle, and one more error callback after that changes nothing. *)
Lemma onerror_after_stop (w : World) (r : Recognition) :
  fire (OnError r) (stopListening w) = stopListening w.
Proof.
  simpl. unfold recognition_onerror.
  destruct (stopListening_releases w) as [Href Hl].
  apply stopListening_idle; assumption.
Qed.

Lemma filter_twice {A : Type} (p : A -> bool) (l : list A) :
  filter p (filter p l) = filter p l.
Proof.
  induction l as [|a l IH]; simpl; [reflexivity|].
  destruct (p a) eqn:Hp; simpl; rewrite ?Hp, IH; reflexivity.
Qed.

(** The end callback of the recognition that [stopListening] has just
    stopped changes nothing either. *)
Lemma onend_after_stop (w : World) (r : Recognition) :
  recognitionRef w = Some r ->
  fire (OnEnd r) (stopListening w) = stopListening w.
Proof.
  intros Href. simpl. unfold recognition_onend, stopListening.
  rewrite Href. destruct w as [s ref sup act reqs n al fr]. simpl.
  unfold engine_stop, with_st, set_ref. simpl.
  rewrite filter_twice. reflexivity.
Qed.

(** In one capture session every batch goes through the closure of the
    same recognition, so the transcript on screen is a function of the
    last batch alone. *)
Lemma session_transcript (r : Recognition) (es : list SpeechEvent)
    (e : SpeechEvent) (w : World) :
  transcript (st (run (map (OnResult r) (es ++ [e])) w))
  = onresult (closure_transcript r) e.
Proof.
  unfold run. rewrite map_app, fold_left_app. reflexivity.
Qed.

End Capture.

(* ------------------------------------------------------------------ *)
(** ** The properties of the specification *)

(** C1. The specification has the final prefix of the transcript grow
    batch after batch, so that text finalized by an earlier batch stays.
    In the component the loop starts from the [transcript] that the
    [onresult] closure captured when [startListening] ran, not from the
    transcript on screen: a continuous recognition finalises "hello", then
    reports "world" as the new result at index 1, and the transcript goes
    from "hello " to "world ". *)
Theorem C1_earlier_final_text_is_dropped :
  let r := Scenario.first_recognition in
  let after_hello :=
    run [User StartListening; OnResult r Scenario.batch_hello] Scenario.page in
  let after_world := fire (OnResult r Scenario.batch_world) after_hello in
  recognitionRef after_hello = Some r
  /\ closure_transcript r = []
  /\ transcript (st after_hello) = lit "hello "
  /\ transcript (st after_world) = lit "world ".
Proof. vm_compute. repeat split. Qed.

(** C2, as the specification states it, fails: with a request waiting
    ([loading] is true), a second call of [handleTranslate] is not
    rejected; it shows no alert and calls [fetch] again, so two requests
    are waiting. *)
Lemma C2_second_submit_issues_second_request :
  let once := handleTranslate (Scenario.page_with "hello") in
  let twice := handleTranslate once in
  loading (st once) = true
  /\ pending once = 1
  /\ alerts twice = []
  /\ List.length (requests twice) = 2
  /\ pending twice = 2.
Proof. vm_compute. repeat split. Qed.

(** C2, amended. At most one translate request is waiting at any time as
    long as translation is triggered through the page, whose Translate
    button is disabled while [loading] is true.  The handler itself has
    no guard: called directly in a state the page has reached, with a
    transcript that is not blank, it calls [fetch] once more whether a
    request is waiting or not. *)
Theorem C2_single_pending_by_disabled_button (sup : bool) (evs : list Event) :
  let w := run evs (boot sup) in
  enabled_run evs (boot sup) = true ->
  truthy (Str (trim (transcript (st w)))) = true ->
  pending w <= 1
  /\ (loading (st w) = true <-> pending w = 1)
  /\ offered (st w) Translate = negb (loading (st w))
  /\ requests (handleTranslate w) = requests w ++ [translate_request (st w)]
  /\ alerts (handleTranslate w) = alerts w
  /\ pending (handleTranslate w) = S (pending w).
Proof.
  intros w Hen Hspoken.
  destruct (run_keeps_single_pending evs (boot sup) Hen) as [Hle Hp];
    [simpl; split; [lia | reflexivity]|].
  fold w in Hle, Hp.
  rewrite (handleTranslate_submits w Hspoken).
  unfold pending in *. simpl. rewrite length_app. simpl.
  destruct (loading (st w)); repeat split; try lia; try congruence.
Qed.

Lemma C2_single_pending_by_disabled_button_witness :
  let evs := [User StartListening;
              OnResult Scenario.first_recognition Scenario.batch_hello;
              User Translate] in
  let w := run evs (boot true) in
  pending w <= 1
  /\ (loading (st w) = true <-> pending w = 1)
  /\ offered (st w) Translate = negb (loading (st w))
  /\ requests (handleTranslate w) = requests w ++ [translate_request (st w)]
  /\ alerts (handleTranslate w) = alerts w
  /\ pending (handleTranslate w) = S (pending w).
Proof.
  apply (C2_single_pending_by_disabled_button true
           [User StartListening;
            OnResult Scenario.first_recognition Scenario.batch_hello;
            User Translate]); reflexivity.
Defined.

(** C3, as the specification states it, fails: a request is sent, Clear
    empties the page, and the answer that arrives afterwards is written
    into the cleared state. *)
Lemma C3_late_answer_lands_after_clear :
  let cleared :=
    run [User Translate; User ClearAll] (Scenario.page_with "hello") in
  let late := fire (OnAnswer (Resolved true Scenario.bonjour)) cleared in
  transcript (st cleared) = []
  /\ translated (st cleared) = Str []
  /\ audioUrl (st cleared) = []
  /\ translated (st late) = Str (lit "bonjour le monde")
  /\ audioUrl (st late) = lit "http://127.0.0.1:8000/audio/1.mp3".
Proof. vm_compute. repeat split. Qed.

(** C3, amended. A request carries no generation id and an answer is not
    checked against the current request: whatever events come between a
    submit and its successful answer (Clear, another submit, anything),
    the answer sets the translated text and the audio reference from its
    body and puts [loading] down. *)
Theorem C3_answer_applied_whenever_it_arrives
    (w : World) (between : list Event) (d : Data) :
  let late :=
    fire (OnAnswer (Resolved true d)) (run between (handleTranslate w)) in
  translated (st late) = translated_text d
  /\ audioUrl (st late) = BACKEND ++ to_string (audio_url d)
  /\ loading (st late) = false.
Proof. apply answer_overwrites. Qed.

(** While the clicks are the ones the page offers and no end callback
    arrives late, one event keeps: a listening page has exactly the
    recognition of its handle running, a page that is not listening has
    none. *)
Lemma fire_keeps_one_recognition (sup : bool) (ev : Event) (w : World) :
  enabled w ev = true ->
  Timing.end_in_time w ev = true ->
  sr_supported w = sup
  /\ (if listening (st w)
      then exists r, recognitionRef w = Some r /\ active w = [r]
      else active w = []) ->
  sr_supported (fire ev w) = sup
  /\ (if listening (st (fire ev w))
      then exists r,
             recognitionRef (fire ev w) = Some r /\ active (fire ev w) = [r]
      else active (fire ev w) = []).
Proof.
  intros Hen Htime [Hsup Hw].
  assert (Hstop : forall h,
    (if listening (st w)
     then exists r, recognitionRef w = Some r /\ active w = [r]
     else active w = []) ->
    recognitionRef w = Some h ->
    filter (fun x => negb (same_recognition x h)) (active w) = []).
  { intros h Hinv Hh. destruct (listening (st w)).
    - destruct Hinv as (r & Hr & Hact). rewrite Hact.
      assert (r = h) by congruence. subst r. simpl.
      unfold same_recognition. rewrite Nat.eqb_refl. reflexivity.
    - rewrite Hinv. reflexivity. }
  destruct ev as [a | r e | r | r | o | l]; simpl in *.
  - destruct a; simpl in *.
    + apply negb_true_iff in Hen. rewrite Hen in Hw.
      unfold startListening. rewrite Hsup.
      destruct sup; simpl.
      * split; [exact Hsup|]. rewrite Hw. eexists. split; reflexivity.
      * rewrite Hen. split; assumption.
    + unfold stopListening.
      destruct (recognitionRef w) as [h|] eqn:Href; simpl.
      * split; [exact Hsup | exact (Hstop h Hw eq_refl)].
      * rewrite Hen in Hw. destruct Hw as (r & Hr & _). discriminate Hr.
    + split; assumption.
    + unfold handleTranslate.
      destruct (negb (truthy (Str (trim (transcript (st w))))));
        simpl; split; assumption.
    + split; assumption.
  - split; assumption.
  - unfold recognition_onerror, stopListening.
    destruct (recognitionRef w) as [h|] eqn:Href; simpl.
    + split; [exact Hsup | exact (Hstop h Hw eq_refl)].
    + split; [exact Hsup|].
      destruct (listening (st w)); [|exact Hw].
      destruct Hw as (r0 & Hr0 & _). discriminate Hr0.
  - split; [exact Hsup|].
    destruct (listening (st w)); simpl in Htime.
    + destruct Hw as (h & Hh & Hact). rewrite Hh in Htime, Hstop.
      rewrite Hact. simpl. unfold same_recognition in *.
      rewrite Nat.eqb_sym, Htime. reflexivity.
    + rewrite Hw. reflexivity.
  - unfold handleTranslate_resume.
    destruct o as [|ok d]; [|destruct ok]; simpl; split; assumption.
  - split; assumption.
Qed.

Lemma run_keeps_one_recognition (sup : bool) (evs : list Event) :
  forall w,
    Timing.in_time_run evs w = true ->
    sr_supported w = sup
    /\ (if listening (st w)
        then exists r, recognitionRef w = Some r /\ active w = [r]
        else active w = []) ->
    sr_supported (run evs w) = sup
    /\ (if listening (st (run evs w))
        then exists r,
               recognitionRef (run evs w) = Some r /\ active (run evs w) = [r]
        else active (run evs w) = []).
Proof.
  induction evs as [|ev evs IH]; intros w Hrun Hw; simpl in *; [exact Hw|].
  apply andb_true_iff in Hrun as [Hev Hrest].
  apply andb_true_iff in Hev as [Hen Htime].
  apply (IH (fire ev w) Hrest).
  exact (fire_keeps_one_recognition sup ev w Hen Htime Hw).
Qed.

(** C4, as the specification states it, fails twice over.  A second call
    of [startListening] while listening is not rejected: it shows no alert
    and starts a second recognition next to the first.  And clicks that the
    page offers are enough to get there: Start, Stop, Start, then the end
    callback of the first recognition arrives late and puts [listening]
    down while the second runs, the page offers Start again, and the third
    recognition runs next to the second. *)
Lemma C4_second_start_runs_second_recognition :
  let once := startListening Scenario.page in
  let twice := startListening once in
  let clicks :=
    [User StartListening; User StopListening; User StartListening;
     OnEnd Scenario.first_recognition; User StartListening] in
  listening (st once) = true
  /\ List.length (active once) = 1
  /\ alerts twice = []
  /\ List.length (active twice) = 2
  /\ map rid (active twice) = [1; 0]
  /\ enabled_run clicks Scenario.page = true
  /\ Timing.in_time_run clicks Scenario.page = false
  /\ alerts (run clicks Scenario.page) = []
  /\ map rid (active (run clicks Scenario.page)) = [2; 1]
  /\ option_map rid (recognitionRef (run clicks Scenario.page)) = Some 2.
Proof. vm_compute. repeat split. Qed.

(** C4, amended.  [startListening] has no guard on [listening]: called in
    any state, in a browser with speech recognition, it is not rejected, it
    starts a new recognition without stopping the running ones and
    overwrites the handle with the new one.  What keeps the recognitions to
    one is the page together with the engine: the page renders the Start
    button exactly when [listening] is false, and after every sequence of
    events the page can receive in which no end callback arrives late (none
    of an earlier recognition while the page listens to a later one), at
    most one recognition runs: the one of the handle when the page is
    listening, none when it is not. *)
Theorem C4_one_recognition_unless_end_is_late
    (sup : bool) (evs : list Event) :
  let w := run evs (boot sup) in
  Timing.in_time_run evs (boot sup) = true ->
  List.length (active w) <= 1
  /\ (if listening (st w)
      then exists r, recognitionRef w = Some r /\ active w = [r]
      else active w = [])
  /\ offered (st w) StartListening = negb (listening (st w))
  /\ active (startListening w)
     = (if sup then new_recognition w :: active w else active w)
  /\ recognitionRef (startListening w)
     = (if sup then Some (new_recognition w) else recognitionRef w)
  /\ alerts (startListening w)
     = (if sup then alerts w else alerts w ++ [no_speech_support]).
Proof.
  intros w Hrun.
  destruct (run_keeps_one_recognition sup evs (boot sup) Hrun) as [Hsup Hw];
    [simpl; split; reflexivity|].
  fold w in Hsup, Hw.
  split; [|split; [exact Hw|]].
  - destruct (listening (st w)).
    + destruct Hw as (r & _ & Hact). rewrite Hact. simpl. lia.
    + rewrite Hw. simpl. lia.
  - unfold startListening. rewrite Hsup.
    destruct sup; simpl; repeat split.
Qed.

Lemma C4_one_recognition_unless_end_is_late_witness :
  let evs :=
    [User StartListening;
     OnResult Scenario.first_recognition Scenario.batch_hello;
     User StopListening; OnEnd Scenario.first_recognition;
     User StartListening] in
  let w := run evs (boot true) in
  List.length (active w) <= 1
  /\ (if listening (st w)
      then exists r, recognitionRef w = Some r /\ active w = [r]
      else active w = [])
  /\ offered (st w) StartListening = negb (listening (st w))
  /\ active (startListening w)
     = (if true then new_recognition w :: active w else active w)
  /\ recognitionRef (startListening w)
     = (if true then Some (new_recognition w) else recognitionRef w)
  /\ alerts (startListening w)
     = (if true then alerts w else alerts w ++ [no_speech_support]).
Proof.
  apply (C4_one_recognition_unless_end_is_late true
           [User StartListening;
            OnResult Scenario.first_recognition Scenario.batch_hello;
            User StopListening; OnEnd Scenario.first_recognition;
            User StartListening]).
  reflexivity.
Defined.

(** C5. When the transcript is empty once trimmed, whatever the target
    language, triggering the translation shows the "Please speak first"
    alert and does nothing else: no call of [fetch], the state cells, the
    handle and the running recognitions are as before. *)
Theorem C5_blank_transcript_is_refused (w : World) (target : jsstring) :
  trim (transcript (st w)) = [] ->
  let w0 := act (SelectLanguage target) w in
  let w' := act Translate w0 in
  alerts w' = alerts w0 ++ [please_speak_first]
  /\ requests w' = requests w0
  /\ pending w' = pending w0
  /\ st w' = st w0
  /\ recognitionRef w' = recognitionRef w0
  /\ active w' = active w0.
Proof.
  intros Hblank w0 w'. subst w'. simpl.
  rewrite (handleTranslate_blank w0 Hblank). repeat split.
Qed.

Lemma C5_blank_transcript_is_refused_witness :
  let w0 := act (SelectLanguage (lit "fr")) (Scenario.page_with "   ") in
  let w' := act Translate w0 in
  alerts w' = alerts w0 ++ [please_speak_first]
  /\ requests w' = requests w0
  /\ pending w' = pending w0
  /\ st w' = st w0
  /\ recognitionRef w' = recognitionRef w0
  /\ active w' = active w0.
Proof.
  apply (C5_blank_transcript_is_refused (Scenario.page_with "   ") (lit "fr")).
  reflexivity.
Defined.

(** C6. The specification has both callbacks release the handle.  The
    error callback does, through [stopListening]; the end callback only
    puts [listening] down: after Start and the engine's end event the flag
    is false and [recognitionRef] still holds the ended recognition, and
    [stopListening] in that state is not a no-op, it clears the handle. *)
Theorem C6_end_callback_keeps_the_handle :
  let r := Scenario.first_recognition in
  let ended := run [User StartListening; OnEnd r] Scenario.page in
  let failed := run [User StartListening; OnError r] Scenario.page in
  listening (st ended) = false
  /\ recognitionRef ended = Some r
  /\ recognitionRef (stopListening ended) = None
  /\ listening (st failed) = false
  /\ recognitionRef failed = None.
Proof. vm_compute. repeat split. Qed.

(** C7. A transcript that is not blank is submitted and the service
    answers with success, [translated_text] and [audio_url]: the
    translated text is the answer's, the audio reference is [BACKEND]
    followed by the answer's path, [loading] is down again, no alert was
    shown and one request went out, with the transcript, the target
    language and "auto". *)
Theorem C7_success_sets_text_and_audio
    (w : World) (t u : jsstring) (e : value) :
  truthy (Str (trim (transcript (st w)))) = true ->
  let d := {| translated_text := Str t; audio_url := Str u; error := e |} in
  let w' := run [User Translate; OnAnswer (Resolved true d)] w in
  translated (st w') = Str t
  /\ audioUrl (st w') = BACKEND ++ u
  /\ loading (st w') = false
  /\ alerts w' = alerts w
  /\ requests w'
     = requests w
       ++ [{| url := BACKEND ++ lit "/translate_tts";
              text := transcript (st w);
              target_lang := targetLang (st w);
              source_lang := lit "auto" |}].
Proof.
  intros Hspoken d w'. subst w'. simpl.
  rewrite (handleTranslate_submits w Hspoken). repeat split.
Qed.

Lemma C7_success_sets_text_and_audio_witness :
  let w := Scenario.page_with "hello world" in
  let w' := run [User Translate; OnAnswer (Resolved true Scenario.bonjour)] w in
  translated (st w') = Str (lit "bonjour le monde")
  /\ audioUrl (st w') = BACKEND ++ lit "/audio/1.mp3"
  /\ loading (st w') = false
  /\ alerts w' = alerts w
  /\ requests w'
     = requests w
       ++ [{| url := BACKEND ++ lit "/translate_tts";
              text := transcript (st w);
              target_lang := targetLang (st w);
              source_lang := lit "auto" |}].
Proof.
  apply (C7_success_sets_text_and_audio (Scenario.page_with "hello world")
           (lit "bonjour le monde") (lit "/audio/1.mp3") Undefined).
  reflexivity.
Defined.

(** C8, as the specification states it, fails on one input: the service
    answers with a failure status and a body whose [error] field is there
    but holds the empty string; the message shown is the generic one, not
    the field. *)
Lemma C8_empty_error_field_gives_generic_message :
  let w' :=
    run [User Translate; OnAnswer (Resolved false Scenario.empty_error)]
      (Scenario.page_with "hello") in
  error Scenario.empty_error = Str []
  /\ alerts w' = [lit "Translation failed."].
Proof. vm_compute. repeat split. Qed.

(** C8, amended. A transcript that is not blank is submitted and the
    request fails.  With a failure status the message shown is the
    body's [error] field when that field is there and not empty, and
    "Translation failed." otherwise; when [fetch] or the parsing of the
    body throws it is "Server error. Is the backend running?".  In both
    cases [loading] is down again, and the translated text and the audio
    reference are empty: the submit emptied them and the failure does not
    bring the earlier result back. *)
Theorem C8_failure_message_and_cleared_result (w : World) (d : Data) :
  truthy (Str (trim (transcript (st w)))) = true ->
  let refused := run [User Translate; OnAnswer (Resolved false d)] w in
  let broken := run [User Translate; OnAnswer Threw] w in
  alerts refused
  = alerts w ++ [match error d with
                 | Str (c :: rest) => c :: rest
                 | _ => lit "Translation failed."
                 end]
  /\ alerts broken = alerts w ++ [lit "Server error. Is the backend running?"]
  /\ translated (st refused) = Str [] /\ audioUrl (st refused) = []
  /\ translated (st broken) = Str [] /\ audioUrl (st broken) = []
  /\ loading (st refused) = false /\ loading (st broken) = false.
Proof.
  intros Hspoken refused broken. subst refused broken. simpl.
  rewrite (handleTranslate_submits w Hspoken). simpl.
  destruct (error d) as [|[|c rest]]; repeat split.
Qed.

Lemma C8_failure_message_and_cleared_result_witness :
  let w :=
    run [User Translate; OnAnswer (Resolved true Scenario.bonjour)]
      (Scenario.page_with "hello") in
  let refused :=
    run [User Translate; OnAnswer (Resolved false Scenario.tts_failed)] w in
  let broken := run [User Translate; OnAnswer Threw] w in
  alerts refused
  = alerts w ++ [match error Scenario.tts_failed with
                 | Str (c :: rest) => c :: rest
                 | _ => lit "Translation failed."
                 end]
  /\ alerts broken = alerts w ++ [lit "Server error. Is the backend running?"]
  /\ translated (st refused) = Str [] /\ audioUrl (st refused) = []
  /\ translated (st broken) = Str [] /\ audioUrl (st broken) = []
  /\ loading (st refused) = false /\ loading (st broken) = false.
Proof.
  apply (C8_failure_message_and_cleared_result
           (run [User Translate; OnAnswer (Resolved true Scenario.bonjour)]
              (Scenario.page_with "hello"))
           Scenario.tts_failed).
  reflexivity.
Defined.

(** The scenario of the specification: HTTP 500 with [{error: "tts failed"}]
    shows "tts failed". *)
Example tts_failed_is_shown :
  alerts (run [User Translate; OnAnswer (Resolved false Scenario.tts_failed)]
            (Scenario.page_with "hello"))
  = [lit "tts failed"].
Proof. reflexivity. Qed.

(** C9. The same batch delivered twice in a row by a recognition leaves
    the page as one delivery does.  The final text the handler builds is
    the transcript its closure holds followed by the final results from
    [resultIndex] on, each once with its blank; results before
    [resultIndex] are not read. *)
Theorem C9_replayed_batch_changes_nothing
    (w : World) (r : Recognition) (e : SpeechEvent) :
  let once := fire (OnResult r e) w in
  let twice := fire (OnResult r e) once in
  twice = once
  /\ transcript (st twice) = onresult (closure_transcript r) e
  /\ fst (onresult_parts (closure_transcript r) e)
     = closure_transcript r
       ++ List.concat (map (fun res => alt0 res ++ lit " ")
                         (filter isFinal
                            (skipn (resultIndex e) (results e)))).
Proof.
  simpl. rewrite onresult_parts_spec. repeat split.
Qed.

(** The scenario of the specification: an interim batch "hel", then the
    final batch "hello world" at index 0, give exactly "hello world ". *)
Example hel_then_hello_world :
  transcript
    (st (run [User StartListening;
              OnResult Scenario.first_recognition Scenario.batch_hel;
              OnResult Scenario.first_recognition Scenario.batch_hello_world]
           Scenario.page))
  = lit "hello world ".
Proof. reflexivity. Qed.

(** C10. Clear empties the transcript, the translated text and the audio
    reference, and nothing else: the listening flag, the handle, the
    target language, the language list and the loading flag are as
    before, and so is everything outside the component. *)
Theorem C10_clear_resets_three_cells_only (w : World) :
  let w' := clearAll w in
  transcript (st w') = []
  /\ translated (st w') = Str []
  /\ audioUrl (st w') = []
  /\ listening (st w') = listening (st w)
  /\ recognitionRef w' = recognitionRef w
  /\ targetLang (st w') = targetLang (st w)
  /\ languages (st w') = languages (st w)
  /\ loading (st w') = loading (st w)
  /\ active w' = active w
  /\ requests w' = requests w
  /\ settled w' = settled w
  /\ alerts w' = alerts w.
Proof. simpl. repeat split. Qed.

(* ------------------------------------------------------------------ *)
(** ** More on the merge of [recognition.onresult] *)

Lemma filter_all {A : Type} (p : A -> bool) (l : list A) :
  forallb p l = true -> filter p l = l.
Proof.
  induction l as [|a l IH]; simpl; [reflexivity|].
  intros H. apply andb_true_iff in H as [Ha Hl].
  rewrite Ha, (IH Hl). reflexivity.
Qed.

Lemma filter_none {A : Type} (p : A -> bool) (l : list A) :
  forallb (fun a => negb (p a)) l = true -> filter p l = [].
Proof.
  induction l as [|a l IH]; simpl; [reflexivity|].
  intros H. apply andb_true_iff in H as [Ha Hl].
  apply negb_true_iff in Ha. rewrite Ha. exact (IH Hl).
Qed.

(** The text the handler hands to [setTranscript], in closed form. *)
Lemma onresult_text (t : jsstring) (e : SpeechEvent) :
  onresult t e
  = t
    ++ List.concat (map (fun res => alt0 res ++ lit " ")
                      (filter isFinal (skipn (resultIndex e) (results e))))
    ++ List.concat (map alt0
                      (filter (fun res => negb (isFinal res))
                         (skipn (resultIndex e) (results e)))).
Proof.
  rewrite onresult_spec, onresult_parts_spec. simpl.
  rewrite <- app_assoc. reflexivity.
Qed.

(** X1. After a result event the transcript on screen is the transcript
    the recognition's closure captured, then every final result from
    [resultIndex] on, each followed by one blank, then every interim result
    from [resultIndex] on: the final ones come first, wherever they stand
    in the event, and what was on screen before plays no part. *)
Theorem onresult_closed_form
    (w : World) (r : Recognition) (e : SpeechEvent) :
  transcript (st (fire (OnResult r e) w))
  = closure_transcript r
    ++ List.concat (map (fun res => alt0 res ++ lit " ")
                      (filter isFinal (skipn (resultIndex e) (results e))))
    ++ List.concat (map alt0
                      (filter (fun res => negb (isFinal res))
                         (skipn (resultIndex e) (results e)))).
Proof. simpl. apply onresult_text. Qed.

(** X2. An event whose [resultIndex] is at or past the end of [results]
    (an event without results among them) makes the loop run no turn: the
    handler puts the transcript captured at start back on screen, whatever
    was shown before. *)
Theorem onresult_index_past_end
    (w : World) (r : Recognition) (e : SpeechEvent) :
  List.length (results e) <= resultIndex e ->
  transcript (st (fire (OnResult r e) w)) = closure_transcript r.
Proof.
  intros Hpast. simpl. rewrite onresult_text.
  rewrite skipn_all2 by exact Hpast. simpl. apply app_nil_r.
Qed.

Lemma onresult_index_past_end_witness :
  let w := Scenario.page_with "typed before" in
  let e := {| resultIndex := 3; results := [Scenario.final "hello"] |} in
  transcript (st (fire (OnResult Scenario.first_recognition e) w)) = [].
Proof.
  apply (onresult_index_past_end (Scenario.page_with "typed before")
           Scenario.first_recognition
           {| resultIndex := 3; results := [Scenario.final "hello"] |}).
  simpl. lia.
Defined.

(** X3. When no result from [resultIndex] on is final, the final text the
    handler builds is the captured transcript, untouched, and the text on
    screen is that transcript followed by the interim results in order. *)
Theorem onresult_interim_only (t : jsstring) (e : SpeechEvent) :
  forallb (fun res => negb (isFinal res))
    (skipn (resultIndex e) (results e)) = true ->
  fst (onresult_parts t e) = t
  /\ onresult t e
     = t ++ List.concat (map alt0 (skipn (resultIndex e) (results e))).
Proof.
  intros Hinterim.
  rewrite onresult_text, onresult_parts_spec. simpl.
  rewrite (filter_none isFinal _ Hinterim).
  rewrite (filter_all _ _ Hinterim). simpl.
  split; [apply app_nil_r | reflexivity].
Qed.

Lemma onresult_interim_only_witness :
  let e := {| resultIndex := 1;
              results := [Scenario.final "hello"; Scenario.interim "wor";
                          Scenario.interim "ld"] |} in
  fst (onresult_parts (lit "so far ") e) = lit "so far "
  /\ onresult (lit "so far ") e
     = lit "so far "
       ++ List.concat (map alt0 (skipn (resultIndex e) (results e))).
Proof.
  apply (onresult_interim_only (lit "so far ")
           {| resultIndex := 1;
              results := [Scenario.final "hello"; Scenario.interim "wor";
                          Scenario.interim "ld"] |}).
  reflexivity.
Defined.

(** X4. The recognition that Start builds keeps the transcript that was
    on screen at that click.  Whatever happens between the click and a
    later result event of that recognition (Clear among it), the event
    puts on screen the transcript of the click, followed by the final and
    then the interim results of the event. *)
Theorem session_restarts_from_click_transcript
    (w : World) (between : list Event) (e : SpeechEvent) :
  sr_supported w = true ->
  let r := new_recognition w in
  let w' := fire (OnResult r e) (run between (startListening w)) in
  recognitionRef (startListening w) = Some r
  /\ transcript (st w')
     = transcript (st w)
       ++ List.concat (map (fun res => alt0 res ++ lit " ")
                         (filter isFinal (skipn (resultIndex e) (results e))))
       ++ List.concat (map alt0
                         (filter (fun res => negb (isFinal res))
                            (skipn (resultIndex e) (results e)))).
Proof.
  intros Hsup r w'. subst w'. split.
  - unfold startListening. rewrite Hsup. reflexivity.
  - simpl. rewrite onresult_text. reflexivity.
Qed.

Lemma session_restarts_from_click_transcript_witness :
  let w := Scenario.page_with "old text " in
  let between := [User ClearAll] in
  let e := Scenario.batch_hello in
  let r := new_recognition w in
  let w' := fire (OnResult r e) (run between (startListening w)) in
  recognitionRef (startListening w) = Some r
  /\ transcript (st w')
     = transcript (st w)
       ++ List.concat (map (fun res => alt0 res ++ lit " ")
                         (filter isFinal (skipn (resultIndex e) (results e))))
       ++ List.concat (map alt0
                         (filter (fun res => negb (isFinal res))
                            (skipn (resultIndex e) (results e)))).
Proof.
  apply (session_restarts_from_click_transcript
           (Scenario.page_with "old text ") [User ClearAll]
           Scenario.batch_hello).
  reflexivity.
Defined.

(* ------------------------------------------------------------------ *)
(** ** More on capture: what every sequence of events keeps *)

Section CaptureInvariants.

(** Every path of the component that stops or loses a recognition also
    puts [listening] down, so a raised flag always comes with a handle
    that is running. *)
Lemma fire_keeps_live_handle (ev : Event) (w : World) :
  (listening (st w) = true ->
   exists r, recognitionRef w = Some r /\ In r (active w)) ->
  listening (st (fire ev w)) = true ->
  exists r, recognitionRef (fire ev w) = Some r /\ In r (active (fire ev w)).
Proof.
  intros Hw.
  destruct ev as [a | r e | r | r | o | l]; simpl.
  - destruct a; simpl.
    + unfold startListening. destruct (sr_supported w); simpl.
      * intros _. eexists. split; [reflexivity | left; reflexivity].
      * exact Hw.
    + unfold stopListening. destruct (recognitionRef w); simpl; discriminate.
    + exact Hw.
    + unfold handleTranslate.
      destruct (negb (truthy (Str (trim (transcript (st w)))))); exact Hw.
    + exact Hw.
  - exact Hw.
  - unfold recognition_onerror, stopListening.
    destruct (recognitionRef w); simpl; discriminate.
  - discriminate.
  - unfold handleTranslate_resume.
    destruct o as [|ok d]; [|destruct ok]; exact Hw.
  - exact Hw.
Qed.

Lemma run_keeps_live_handle (evs : list Event) :
  forall w,
    (listening (st w) = true ->
     exists r, recognitionRef w = Some r /\ In r (active w)) ->
    listening (st (run evs w)) = true ->
    exists r, recognitionRef (run evs w) = Some r /\ In r (active (run evs w)).
Proof.
  induction evs as [|ev evs IH]; intros w Hw; simpl; [exact Hw|].
  apply IH. exact (fire_keeps_live_handle ev w Hw).
Qed.

(** No handler changes what the browser supports. *)
Lemma fire_sr_supported (ev : Event) (w : World) :
  sr_supported (fire ev w) = sr_supported w.
Proof.
  destruct ev as [a | r e | r | r | o | l]; simpl; try reflexivity.
  - destruct a; simpl; try reflexivity.
    + unfold startListening.
      destruct (sr_supported w) eqn:Hsup; simpl; exact Hsup.
    + unfold stopListening. destruct (recognitionRef w); reflexivity.
    + unfold handleTranslate.
      destruct (negb (truthy (Str (trim (transcript (st w))))));
        reflexivity.
  - unfold recognition_onerror, stopListening.
    destruct (recognitionRef w); reflexivity.
  - unfold handleTranslate_resume.
    destruct o as [|ok d]; [|destruct ok]; reflexivity.
Qed.

Lemma run_sr_supported (evs : list Event) :
  forall w, sr_supported (run evs w) = sr_supported w.
Proof.
  induction evs as [|ev evs IH]; intros w; simpl; [reflexivity|].
  unfold run in IH. rewrite IH. apply fire_sr_supported.
Qed.

(** The recognitions that run were all built before the next one. *)
Lemma fire_keeps_older_ids (ev : Event) (w : World) :
  Forall (fun r => rid r < fresh w) (active w) ->
  Forall (fun r => rid r < fresh (fire ev w)) (active (fire ev w)).
Proof.
  intros Hw.
  assert (Hstop : forall x,
    Forall (fun r => rid r < fresh w)
      (filter (fun y => negb (same_recognition y x)) (active w)))
    by (intros x; exact (incl_Forall (incl_filter _ _) Hw)).
  destruct ev as [a | r e | r | r | o | l]; simpl; try exact Hw.
  - destruct a; simpl; try exact Hw.
    + unfold startListening. destruct (sr_supported w); simpl; [|exact Hw].
      constructor; [simpl; lia|].
      eapply Forall_impl; [|exact Hw]. simpl. intros; lia.
    + unfold stopListening.
      destruct (recognitionRef w); simpl; [apply Hstop | exact Hw].
    + unfold handleTranslate.
      destruct (negb (truthy (Str (trim (transcript (st w))))));
        exact Hw.
  - unfold recognition_onerror, stopListening.
    destruct (recognitionRef w); simpl; [apply Hstop | exact Hw].
  - apply Hstop.
  - unfold handleTranslate_resume.
    destruct o as [|ok d]; [|destruct ok]; exact Hw.
Qed.

Lemma run_keeps_older_ids (evs : list Event) :
  forall w,
    Forall (fun r => rid r < fresh w) (active w) ->
    Forall (fun r => rid r < fresh (run evs w)) (active (run evs w)).
Proof.
  induction evs as [|ev evs IH]; intros w Hw; simpl; [exact Hw|].
  apply IH. exact (fire_keeps_older_ids ev w Hw).
Qed.

(** Without support [startListening] only alerts, so nothing ever runs. *)
Lemma fire_keeps_unsupported (ev : Event) (w : World) :
  sr_supported w = false /\ listening (st w) = false
  /\ recognitionRef w = None /\ active w = [] ->
  sr_supported (fire ev w) = false /\ listening (st (fire ev w)) = false
  /\ recognitionRef (fire ev w) = None /\ active (fire ev w) = [].
Proof.
  intros (Hsup & Hl & Href & Hact).
  destruct ev as [a | r e | r | r | o | l]; simpl; auto.
  - destruct a; simpl; auto.
    + unfold startListening. rewrite Hsup. simpl. auto.
    + unfold stopListening. rewrite Href. simpl. auto.
    + unfold handleTranslate.
      destruct (negb (truthy (Str (trim (transcript (st w))))));
        simpl; auto.
  - unfold recognition_onerror, stopListening. rewrite Href. simpl. auto.
  - rewrite Hact. simpl. auto.
  - unfold handleTranslate_resume.
    destruct o as [|ok d]; [|destruct ok]; simpl; auto.
Qed.

End CaptureInvariants.

(** X5. After any sequence of events on a fresh page (clicks, engine
    callbacks, answers, in any order), if the page shows Listening then
    [recognitionRef] holds a recognition and that recognition is one of
    those running: the Stop button always has something to stop. *)
Theorem listening_has_live_handle (sup : bool) (evs : list Event) :
  listening (st (run evs (boot sup))) = true ->
  exists r,
    recognitionRef (run evs (boot sup)) = Some r
    /\ In r (active (run evs (boot sup))).
Proof.
  apply run_keeps_live_handle. simpl. discriminate.
Qed.

Lemma listening_has_live_handle_witness :
  let evs := [User StartListening;
              OnResult Scenario.first_recognition Scenario.batch_hel;
              User Translate] in
  exists r,
    recognitionRef (run evs (boot true)) = Some r
    /\ In r (active (run evs (boot true))).
Proof.
  apply (listening_has_live_handle true
           [User StartListening;
            OnResult Scenario.first_recognition Scenario.batch_hel;
            User Translate]).
  reflexivity.
Defined.

(** X6. [stopListening] is idempotent: in every state, after it the
    handle is null and the page is not listening, and calling it once more
    changes nothing. *)
Theorem stopListening_idempotent (w : World) :
  stopListening (stopListening w) = stopListening w
  /\ recognitionRef (stopListening w) = None
  /\ listening (st (stopListening w)) = false.
Proof.
  destruct (stopListening_releases w) as [Href Hl].
  split; [|split; assumption].
  apply stopListening_idle; assumption.
Qed.

(** X7. In any state a fresh page can reach in a browser with speech
    recognition, Start followed by Stop stops exactly the recognition that
    Start began: the recognitions that were running still run, the handle
    is null, the state cells are as before except for [listening], which is
    false, and no request or alert was issued. *)
Theorem stop_after_start_restores (evs : list Event) :
  let w := run evs (boot true) in
  let w' := stopListening (startListening w) in
  active w' = active w
  /\ recognitionRef w' = None
  /\ st w' = setListening false (st w)
  /\ requests w' = requests w
  /\ alerts w' = alerts w.
Proof.
  intros w w'. subst w'.
  assert (Hsup : sr_supported w = true) by apply run_sr_supported.
  assert (Hold : Forall (fun r => rid r < fresh w) (active w))
    by (apply run_keeps_older_ids; constructor).
  unfold startListening, stopListening. rewrite Hsup. simpl.
  unfold same_recognition. simpl. rewrite Nat.eqb_refl. simpl.
  repeat split.
  apply filter_all. apply forallb_forall. intros x Hx.
  rewrite Forall_forall in Hold. specialize (Hold x Hx).
  apply negb_true_iff, Nat.eqb_neq. lia.
Qed.

(** X8. In a browser without speech recognition capture never starts:
    after any sequence of events the page is not listening, holds no
    handle, and no recognition runs. *)
Theorem no_capture_without_support (evs : list Event) :
  let w := run evs (boot false) in
  listening (st w) = false /\ recognitionRef w = None /\ active w = [].
Proof.
  simpl.
  assert (H : forall w,
    sr_supported w = false /\ listening (st w) = false
    /\ recognitionRef w = None /\ active w = [] ->
    sr_supported (run evs w) = false /\ listening (st (run evs w)) = false
    /\ recognitionRef (run evs w) = None /\ active (run evs w) = []).
  { induction evs as [|ev evs IH]; intros w Hw; simpl; [exact Hw|].
    apply IH. exact (fire_keeps_unsupported ev w Hw). }
  destruct (H (boot false)) as (_ & Hrest); [simpl; auto | exact Hrest].
Qed.

(* ------------------------------------------------------------------ *)
(** ** More on the translate request *)

(** X9. A translation, from the click to its answer, never touches the
    capture side or the input: whatever the transcript and however the
    request ends, the transcript, the target language, the language list,
    the listening flag, the handle and the running recognitions are as
    before the click. *)
Theorem translation_leaves_capture_alone (w : World) (o : Outcome) :
  let w' := run [User Translate; OnAnswer o] w in
  transcript (st w') = transcript (st w)
  /\ targetLang (st w') = targetLang (st w)
  /\ languages (st w') = languages (st w)
  /\ listening (st w') = listening (st w)
  /\ recognitionRef w' = recognitionRef w
  /\ active w' = active w.
Proof.
  simpl. unfold handleTranslate, handleTranslate_resume.
  destruct (negb (truthy (Str (trim (transcript (st w))))));
    destruct o as [|ok d]; [| destruct ok | | destruct ok];
    simpl; repeat split.
Qed.

(** X10. Translate is refused exactly when every code unit of the
    transcript is white space, the empty transcript included: then the
    alert is shown and nothing is sent.  Otherwise one request goes out,
    with the transcript as it stands (not trimmed), the target language
    and "auto", no alert is shown and [loading] goes up. *)
Theorem translate_sends_iff_not_blank (w : World) :
  let blank := forallb is_white_space (transcript (st w)) in
  let w' := handleTranslate w in
  requests w'
  = (if blank then requests w
     else requests w
          ++ [{| url := lit "http://127.0.0.1:8000/translate_tts";
                 text := transcript (st w);
                 target_lang := targetLang (st w);
                 source_lang := lit "auto" |}])
  /\ alerts w'
     = (if blank then alerts w ++ [please_speak_first] else alerts w)
  /\ loading (st w') = (if blank then loading (st w) else true).
Proof.
  simpl.
  destruct (forallb is_white_space (transcript (st w))) eqn:Hblank.
  - rewrite (handleTranslate_blank w (trim_blank _ Hblank)).
    repeat split.
  - assert (Hspoken : truthy (Str (trim (transcript (st w)))) = true).
    { destruct (trim (transcript (st w))) as [|c rest] eqn:Htrim;
        [|reflexivity].
      rewrite (trim_nil_blank _ Htrim) in Hblank. discriminate Hblank. }
    rewrite (handleTranslate_submits w Hspoken). repeat split.
Qed.

(* ------------------------------------------------------------------ *)
(** ** The page that is rendered *)

(** X11. The controls of the page are the ones [offered] says: the
    capture button is Start exactly when Start is offered and Stop exactly
    when Stop is offered, the Translate button is enabled exactly when
    Translate is offered, and Clear is always enabled. *)
Theorem rendered_controls_are_the_offered_ones (s : State) :
  let p := View.render s in
  (View.onClick (View.capture_button p)
   = if offered s StartListening then StartListening else StopListening)
  /\ offered s StopListening = negb (offered s StartListening)
  /\ View.disabled (View.capture_button p) = false
  /\ View.onClick (View.translate_button p) = Translate
  /\ View.disabled (View.translate_button p) = negb (offered s Translate)
  /\ View.onClick (View.clear_button p) = ClearAll
  /\ View.disabled (View.clear_button p) = negb (offered s ClearAll).
Proof.
  simpl. destruct (listening s), (loading s); simpl; repeat split.
Qed.

(** X12. After a successful answer the audio player is always on the
    page, with [controls] and [autoPlay], and its source is [BACKEND]
    followed by the answer's [audio_url]; when the answer has no
    [audio_url] the player is there all the same, with [BACKEND] followed
    by "undefined".  The translated panel shows the answer's text, or "No
    translation yet." when the text is missing or empty, and the
    Translate button is enabled again. *)
Theorem success_shows_audio_player (w : World) (d : Data) :
  let p := View.render (st (fire (OnAnswer (Resolved true d)) w)) in
  option_map View.src (View.audio_panel p)
  = Some (lit "http://127.0.0.1:8000"
            ++ match audio_url d with
               | Str u => u
               | Undefined => lit "undefined"
               end)
  /\ option_map View.controls (View.audio_panel p) = Some true
  /\ option_map View.autoPlay (View.audio_panel p) = Some true
  /\ View.body (View.translated_panel p)
     = match translated_text d with
       | Str (c :: rest) => c :: rest
       | _ => lit "No translation yet."
       end
  /\ View.disabled (View.translate_button p) = false
  /\ View.label (View.translate_button p) = View.translate_and_speak.
Proof.
  simpl. destruct (audio_url d) as [|u];
    destruct (translated_text d) as [|[|c rest]]; simpl; repeat split.
Qed.

(** X13. While a request is on its way the Translate button is disabled
    and reads "Translating...", the translated panel shows "No translation
    yet." and there is no audio player, whatever was shown before.  When
    the request fails (failure status, or [fetch] or the parsing throws)
    the button is enabled again with its usual label, and the panel and the
    player stay as they were while waiting. *)
Theorem pending_and_failure_look (w : World) (d : Data) :
  truthy (Str (trim (transcript (st w)))) = true ->
  let waiting := View.render (st (handleTranslate w)) in
  let refused :=
    View.render (st (run [User Translate; OnAnswer (Resolved false d)] w)) in
  let broken := View.render (st (run [User Translate; OnAnswer Threw] w)) in
  View.disabled (View.translate_button waiting) = true
  /\ View.label (View.translate_button waiting) = lit "Translating..."
  /\ View.body (View.translated_panel waiting) = lit "No translation yet."
  /\ View.audio_panel waiting = None
  /\ View.translate_button refused
     = View.translate_button (View.render (setLoading false (st w)))
  /\ View.translate_button broken = View.translate_button refused
  /\ View.disabled (View.translate_button refused) = false
  /\ View.translated_panel refused = View.translated_panel waiting
  /\ View.translated_panel broken = View.translated_panel waiting
  /\ View.audio_panel refused = None
  /\ View.audio_panel broken = None.
Proof.
  intros Hspoken. simpl.
  rewrite (handleTranslate_submits w Hspoken). simpl.
  repeat split.
Qed.

Lemma pending_and_failure_look_witness :
  let w :=
    run [User Translate; OnAnswer (Resolved true Scenario.bonjour)]
      (Scenario.page_with "hello") in
  let d := Scenario.tts_failed in
  let waiting := View.render (st (handleTranslate w)) in
  let refused :=
    View.render (st (run [User Translate; OnAnswer (Resolved false d)] w)) in
  let broken := View.render (st (run [User Translate; OnAnswer Threw] w)) in
  View.disabled (View.translate_button waiting) = true
  /\ View.label (View.translate_button waiting) = lit "Translating..."
  /\ View.body (View.translated_panel waiting) = lit "No translation yet."
  /\ View.audio_panel waiting = None
  /\ View.translate_button refused
     = View.translate_button (View.render (setLoading false (st w)))
  /\ View.translate_button broken = View.translate_button refused
  /\ View.disabled (View.translate_button refused) = false
  /\ View.translated_panel refused = View.translated_panel waiting
  /\ View.translated_panel broken = View.translated_panel waiting
  /\ View.audio_panel refused = None
  /\ View.audio_panel broken = None.
Proof.
  apply (pending_and_failure_look
           (run [User Translate; OnAnswer (Resolved true Scenario.bonjour)]
              (Scenario.page_with "hello"))
           Scenario.tts_failed).
  reflexivity.
Defined.

(** X14. After Clear the page shows "Waiting for your speech..." and "No
    translation yet." and no audio player, in every state; the capture
    button, the language select and the Translate button (a request on its
    way keeps it disabled) are as before. *)
Theorem clear_look (w : World) :
  let before := View.render (st w) in
  let p := View.render (st (clearAll w)) in
  View.body (View.transcript_panel p) = lit "Waiting for your speech..."
  /\ View.body (View.translated_panel p) = lit "No translation yet."
  /\ View.audio_panel p = None
  /\ View.capture_button p = View.capture_button before
  /\ View.language_select p = View.language_select before
  /\ View.translate_button p = View.translate_button before
  /\ View.clear_button p = View.clear_button before.
Proof. simpl. repeat split. Qed.

(** X15. The language fetch ends silently.  When it fails, or when its
    body has no [languages] field, the select has no option; otherwise it
    has one option per language of the body, in order, with the code as
    key and value and "name (code)" as text.  In every case no alert is
    shown, and the selected target language is not adjusted to the list:
    it stays as it was, in the list or not. *)
Theorem language_load_fills_select
    (w : World) (o : Catalog.LanguagesOutcome) :
  let w' := Catalog.load_languages o w in
  let loaded :=
    match o with
    | Catalog.LanguagesResolved
        {| Catalog.languages_field := Some l |} => l
    | _ => []
    end in
  let sel := View.language_select (View.render (st w')) in
  map View.option_value (View.options sel) = map code loaded
  /\ map View.key (View.options sel) = map code loaded
  /\ map View.option_text (View.options sel)
     = map (fun l => name l ++ lit " (" ++ code l ++ lit ")") loaded
  /\ View.selected sel = targetLang (st w)
  /\ alerts w' = alerts w
  /\ requests w' = requests w
  /\ transcript (st w') = transcript (st w).
Proof.
  destruct o as [|[[l|]]]; simpl; rewrite ?map_map; repeat split.
Qed.

(* ------------------------------------------------------------------ *)
(** ** What every sequence of events keeps of the translation cells *)

Section TranslationInvariants.

Lemma fire_keeps_backend_audio (ev : Event) (w : World) :
  (audioUrl (st w) = [] \/ exists path, audioUrl (st w) = BACKEND ++ path) ->
  audioUrl (st (fire ev w)) = []
  \/ exists path, audioUrl (st (fire ev w)) = BACKEND ++ path.
Proof.
  intros Hw.
  destruct ev as [a | r e | r | r | o | l]; simpl; try exact Hw.
  - destruct a; simpl; try exact Hw.
    + unfold startListening. destruct (sr_supported w); exact Hw.
    + unfold stopListening. destruct (recognitionRef w); exact Hw.
    + unfold handleTranslate.
      destruct (negb (truthy (Str (trim (transcript (st w))))));
        [exact Hw | left; reflexivity].
    + left; reflexivity.
  - unfold recognition_onerror, stopListening.
    destruct (recognitionRef w); exact Hw.
  - unfold handleTranslate_resume.
    destruct o as [|ok d]; [exact Hw|].
    destruct ok; [|exact Hw].
    right. exists (to_string (audio_url d)). reflexivity.
Qed.

(** Every answer puts [loading] down and every submit empties the two
    cells, so a raised [loading] always finds them empty. *)
Lemma fire_keeps_blank_while_loading (ev : Event) (w : World) :
  (loading (st w) = true ->
   translated (st w) = Str [] /\ audioUrl (st w) = []) ->
  loading (st (fire ev w)) = true ->
  translated (st (fire ev w)) = Str [] /\ audioUrl (st (fire ev w)) = [].
Proof.
  intros Hw.
  destruct ev as [a | r e | r | r | o | l]; simpl; try exact Hw.
  - destruct a; simpl; try exact Hw.
    + unfold startListening. destruct (sr_supported w); exact Hw.
    + unfold stopListening. destruct (recognitionRef w); exact Hw.
    + unfold handleTranslate.
      destruct (negb (truthy (Str (trim (transcript (st w))))));
        [exact Hw | intros _; split; reflexivity].
    + intros _; split; reflexivity.
  - unfold recognition_onerror, stopListening.
    destruct (recognitionRef w); exact Hw.
  - unfold handleTranslate_resume.
    destruct o as [|ok d]; [|destruct ok]; simpl; discriminate.
Qed.

End TranslationInvariants.

(** X16. After any sequence of events on a fresh page the audio
    reference is either empty or starts with [BACKEND]: the player is never
    given a source that the component did not build from its own base
    address. *)
Theorem audio_source_is_on_backend (sup : bool) (evs : list Event) :
  let s := st (run evs (boot sup)) in
  audioUrl s = []
  \/ exists path, audioUrl s = lit "http://127.0.0.1:8000" ++ path.
Proof.
  simpl.
  assert (H : forall w,
    (audioUrl (st w) = [] \/ exists path, audioUrl (st w) = BACKEND ++ path) ->
    audioUrl (st (run evs w)) = []
    \/ exists path, audioUrl (st (run evs w)) = BACKEND ++ path).
  { induction evs as [|ev evs IH]; intros w Hw; simpl; [exact Hw|].
    apply IH. exact (fire_keeps_backend_audio ev w Hw). }
  apply H. left; reflexivity.
Qed.

(** X17. After any sequence of events on a fresh page, while [loading] is
    true (the button reads "Translating...") the translated text and the
    audio reference are empty: the page shows no translation and no
    player of an earlier request while a new one is on its way. *)
Theorem blank_while_loading (sup : bool) (evs : list Event) :
  let w := run evs (boot sup) in
  loading (st w) = true ->
  translated (st w) = Str [] /\ audioUrl (st w) = []
  /\ View.body (View.translated_panel (View.render (st w)))
     = lit "No translation yet."
  /\ View.audio_panel (View.render (st w)) = None.
Proof.
  intros w Hloading.
  assert (H : forall evs0 w0,
    (loading (st w0) = true ->
     translated (st w0) = Str [] /\ audioUrl (st w0) = []) ->
    loading (st (run evs0 w0)) = true ->
    translated (st (run evs0 w0)) = Str []
    /\ audioUrl (st (run evs0 w0)) = []).
  { induction evs0 as [|ev evs0 IH]; intros w0 Hw0; simpl; [exact Hw0|].
    apply IH. exact (fire_keeps_blank_while_loading ev w0 Hw0). }
  destruct (H evs (boot sup)) as [Ht Ha];
    [simpl; discriminate | exact Hloading |].
  fold w in Ht, Ha. simpl. rewrite Ht, Ha. repeat split.
Qed.

Lemma blank_while_loading_witness :
  let w :=
    run [OnResult Scenario.first_recognition Scenario.batch_hello;
         User Translate; OnAnswer (Resolved true Scenario.bonjour);
         User Translate]
      (boot true) in
  translated (st w) = Str [] /\ audioUrl (st w) = []
  /\ View.body (View.translated_panel (View.render (st w)))
     = lit "No translation yet."
  /\ View.audio_panel (View.render (st w)) = None.
Proof.
  apply (blank_while_loading true
           [OnResult Scenario.first_recognition Scenario.batch_hello;
            User Translate; OnAnswer (Resolved true Scenario.bonjour);
            User Translate]).
  reflexivity.
Defined.
